(** * Gemini Image Creator: a shallow embedding of [app.py]

    The Streamlit script [app.py] is embedded function by function:
    [initialize_client], [generate_image], [modify_image] and [main].

    - Python exceptions are values of [PyExn]; a computation ends in
      [Val], [Raised] or [Stopped] (the script-control signal of
      [st.stop()], which [except Exception] does not catch).
    - The mutable surroundings of one script run (secret store, process
      environment, session state, what was rendered, which remote calls
      were issued) are threaded explicitly as a [World].
    - Widget values are the inputs of one run of the script ([Inputs]).
    - [st.secrets] is the secrets singleton of Streamlit with its three
      states: no usable secrets file, a file not read yet, a file read.
      Reading it for the first time writes its string and number entries
      into [os.environ]; with no usable file every access raises.
    - The PIL image type, [Image.open], the PNG encoder behind
      [Image.save(..., format="PNG")] and the remote
      [client.models.generate_content] are not code of the application:
      they are variables of the section. Rendering calls ([st.image],
      [st.download_button], ...) and the PNG encoder are taken to
      return normally, and each is recorded as one event (a deprecation
      notice that some Streamlit versions add for [use_column_width] is
      not recorded). *)

From Stdlib Require Import Strings.Byte.
From stdpp Require Import gmap strings list.

Open Scope string_scope.

(** ** Python values shared by all functions *)

(** An exception, instance of [Exception]: its class name and
    [str(e)]. *)
Record PyExn := { exn_class : string; exn_str : string }.

Definition bytes := list byte.

(** [google.genai.types.Blob]: [data] and [mime_type] are optional. *)
Record Blob := { data : option bytes; mime_type : option string }.

(** [google.genai.types.Part], restricted to the two fields read. *)
Record Part := { part_text : option string; inline_data : option Blob }.

Record Content := { parts : option (list Part) }.
Record Candidate := { content : option Content }.
Record Response := { candidates : option (list Candidate) }.

(** [genai.Client(api_key=...)]. *)
Record Client := { api_key : string }.

Inductive Page := GenerateNewImage | ModifyExistingImage.

(** Widget values of one run of the script. *)
Record Inputs := {
  api_key_input : string;             (* st.text_input("Enter your Google API Key:") *)
  page_radio : Page;                  (* st.sidebar.radio *)
  prompt_input : string;              (* st.text_area("Enter your prompt:") *)
  generate_button : bool;             (* st.button("Generate Image") *)
  uploaded_file : option bytes;       (* st.file_uploader *)
  use_last_checkbox : bool;           (* st.checkbox("Use last generated image") *)
  modification_input : string;        (* st.text_area("Enter modification instructions:") *)
  modify_button : bool                (* st.button("Modify Image") *)
}.

(** Outcome of a Python computation. *)
Inductive Outcome (A : Type) :=
| Val (a : A)
| Raised (e : PyExn)
| Stopped.
Arguments Val {A} a.
Arguments Raised {A} e.
Arguments Stopped {A}.

(** Python truthiness of an optional string: [None] and the empty
    string are falsy. *)
Definition truthy (s : option string) : bool :=
  match s with
  | Some (String _ _) => true
  | _ => false
  end.

(** A Python value other than [None], as far as line 14 to 22 can tell
    values apart: a [str], or a value of another type, described by the
    name of its type, its truthiness and the text the secrets loader
    writes to [os.environ] for it (numbers only). *)
Inductive PyValue :=
| PyStr (s : string)
| PyOther (type_name : string) (is_truthy : bool) (env_text : option string).

(** Truthiness of a value that may be [None]. *)
Definition value_truthy (v : option PyValue) : bool :=
  match v with
  | Some (PyStr s) => truthy (Some s)
  | Some (PyOther _ b _) => b
  | None => false
  end.

(** What the secrets loader writes to [os.environ] for an entry. *)
Definition exported_text (v : PyValue) : option string :=
  match v with
  | PyStr s => Some s
  | PyOther _ _ t => t
  end.

(** [os.environ] after the loader went through [entries]. *)
Definition export_secrets (entries : gmap string PyValue) (env : gmap string string)
  : gmap string string :=
  omap exported_text entries ∪ env.

(** The secrets singleton: no usable [secrets.toml] (none found, or
    one that does not parse: every access raises [err]), a file that
    was not read yet, or a file that was read. *)
Inductive SecretsState :=
| NoSecretsFile (err : PyExn)
| SecretsOnDisk (entries : gmap string PyValue)
| SecretsLoaded (entries : gmap string PyValue).

Definition secrets_entries (sec : SecretsState) : option (gmap string PyValue) :=
  match sec with
  | NoSecretsFile _ => None
  | SecretsOnDisk entries | SecretsLoaded entries => Some entries
  end.

Definition GOOGLE_API_KEY : string := "GOOGLE_API_KEY".
Definition MODEL : string := "gemini-2.0-flash-exp-image-generation".

(** ** Attribute and index accesses that can raise *)

Definition TypeError (msg : string) : PyExn :=
  {| exn_class := "TypeError"; exn_str := msg |}.
Definition IndexError (msg : string) : PyExn :=
  {| exn_class := "IndexError"; exn_str := msg |}.
Definition AttributeError (msg : string) : PyExn :=
  {| exn_class := "AttributeError"; exn_str := msg |}.

(** [response.candidates[0]] *)
Definition first_candidate (r : Response) : PyExn + Candidate :=
  match candidates r with
  | None => inl (TypeError "'NoneType' object is not subscriptable")
  | Some [] => inl (IndexError "list index out of range")
  | Some (c :: _) => inr c
  end.

(** [c.content.parts], then [iter(...)] of it for the [for] loop. *)
Definition content_parts (c : Candidate) : PyExn + list Part :=
  match content c with
  | None => inl (AttributeError "'NoneType' object has no attribute 'parts'")
  | Some ct =>
      match parts ct with
      | None => inl (TypeError "'NoneType' object is not iterable")
      | Some ps => inr ps
      end
  end.

(** [response.candidates[0].content.parts] as the loop iterates it. *)
Definition response_parts (r : Response) : PyExn + list Part :=
  match first_candidate r with
  | inl e => inl e
  | inr c => content_parts c
  end.

(** [BytesIO(b)]: [BytesIO(None)] is the empty buffer. *)
Definition BytesIO (b : option bytes) : bytes := default [] b.

Section App.

(** The PIL image object. *)
Context {Image : Type}.

(** [Image.open] on a byte buffer: an image or an exception. *)
Variable Image_open : bytes -> PyExn + Image.

(** [img.save(buf, format="PNG"); buf.getvalue()]. *)
Variable Image_save_png : Image -> bytes.

(** The [contents] argument of the remote call. *)
Inductive Contents :=
| ContentsPrompt (prompt : string)                  (* contents=prompt *)
| ContentsList (prompt : string) (image : Image).   (* contents=[prompt, image] *)

Record Request := {
  model : string;
  contents : Contents;
  response_modalities : list string
}.

(** [client.models.generate_content]: a response or an exception. *)
Variable generate_content : Client -> Request -> PyExn + Response.

(** The dict [{"image": ..., "text": ...}]. *)
Record Result := { image : option Image; text : option string }.

(** What a run renders. *)
Inductive UiEvent :=
| StTitle (s : string)
| StHeader (s : string)
| StWarning (s : string)
| StError (s : string)
| StInfo (s : string)
| StImage (img : Image) (caption : string)
| StDownloadButton (label : string) (payload : bytes) (file_name mime : string)
| StModelResponse (label value : string).

(** The surroundings of a run. [last_generated_image] is the attribute
    of [st.session_state]: [None] when the attribute is not set. *)
Record World := {
  secrets : SecretsState;
  environ : gmap string string;
  last_generated_image : option Image;
  ui : list UiEvent;
  calls : list (Client * Request)
}.

Definition M (A : Type) : Type := World -> Outcome A * World.

Definition ret {A} (a : A) : M A := fun w => (Val a, w).

Definition bind {A B} (m : M A) (k : A -> M B) : M B :=
  fun w =>
    match m w with
    | (Val a, w') => k a w'
    | (Raised e, w') => (Raised e, w')
    | (Stopped, w') => (Stopped, w')
    end.

Notation "x <- m ; k" := (bind m (fun x => k))
  (at level 100, m at next level, right associativity).
Notation "m ;; k" := (bind m (fun _ => k))
  (at level 100, right associativity).

(** [try: body / except Exception as e: handler e]. *)
Definition try_except {A} (body : M A) (handler : PyExn -> M A) : M A :=
  fun w =>
    match body w with
    | (Raised e, w') => handler e w'
    | r => r
    end.

Definition lift {A} (r : PyExn + A) : M A :=
  fun w => match r with inl e => (Raised e, w) | inr a => (Val a, w) end.

(** World updates. *)
Definition add_ui (ev : UiEvent) (w : World) : World :=
  {| secrets := secrets w; environ := environ w;
     last_generated_image := last_generated_image w;
     ui := ui w ++ [ev]; calls := calls w |}.

Definition add_call (client : Client) (rq : Request) (w : World) : World :=
  {| secrets := secrets w; environ := environ w;
     last_generated_image := last_generated_image w;
     ui := ui w; calls := calls w ++ [(client, rq)] |}.

Definition put_environ (k v : string) (w : World) : World :=
  {| secrets := secrets w; environ := <[k:=v]> (environ w);
     last_generated_image := last_generated_image w;
     ui := ui w; calls := calls w |}.

Definition put_last_generated_image (img : Image) (w : World) : World :=
  {| secrets := secrets w; environ := environ w;
     last_generated_image := Some img;
     ui := ui w; calls := calls w |}.

(** The first access to [st.secrets] with a file on disk: the file is
    read and its entries are exported to [os.environ]. *)
Definition load_secrets (w : World) : World :=
  match secrets w with
  | SecretsOnDisk entries =>
      {| secrets := SecretsLoaded entries;
         environ := export_secrets entries (environ w);
         last_generated_image := last_generated_image w;
         ui := ui w; calls := calls w |}
  | _ => w
  end.

(** A rendering call of Streamlit. *)
Definition emit (ev : UiEvent) : M unit := fun w => (Val tt, add_ui ev w).

Definition st_stop : M unit := fun w => (Stopped, w).

(** The remote call, recorded in [calls] before it answers. *)
Definition models_generate_content (client : Client) (rq : Request) : M Response :=
  fun w =>
    let w' := add_call client rq w in
    match generate_content client rq with
    | inl e => (Raised e, w')
    | inr r => (Val r, w')
    end.

(** [for x in l: body], threading the local variables [s]. *)
Fixpoint for_each {A S} (l : list A) (body : A -> S -> M S) (s : S) : M S :=
  match l with
  | [] => ret s
  | x :: l' => s' <- body x s; for_each l' body s'
  end.

(** ** [generate_image] (lines 25-47) *)

(** Loop body, lines 38-42; the local variables are [result]. *)
Definition generate_image_part (part : Part) (result : Result) : M Result :=
  match part_text part with
  | Some t => ret {| image := image result; text := Some t |}
  | None =>
      match inline_data part with
      | Some blob =>
          img <- lift (Image_open (BytesIO (data blob)));
          ret {| image := Some img; text := text result |}
      | None => ret result
      end
  end.

Definition generate_image (prompt : string) (client : Client) : M (option Result) :=
  try_except
    (response <- models_generate_content client
                   {| model := MODEL; contents := ContentsPrompt prompt;
                      response_modalities := ["Text"; "Image"] |};
     let result := {| image := None; text := None |} in
     ps <- lift (response_parts response);
     result <- for_each ps generate_image_part result;
     ret (Some result))
    (fun e =>
       emit (StError ("Error generating image: " +:+ exn_str e));;
       ret None).

(** ** [modify_image] (lines 50-72) *)

(** Loop body, lines 63-67. The parameter [image] of [modify_image] is
    assigned in the loop, so the local variables are the pair
    ([image], [result]). *)
Definition modify_image_part (part : Part) (locals : Image * Result)
  : M (Image * Result) :=
  let '(image_var, result) := locals in
  match part_text part with
  | Some t => ret (image_var, {| image := image result; text := Some t |})
  | None =>
      match inline_data part with
      | Some blob =>
          image_var' <- lift (Image_open (BytesIO (data blob)));
          ret (image_var', {| image := Some image_var'; text := text result |})
      | None => ret (image_var, result)
      end
  end.

Definition modify_image (prompt : string) (image_arg : Image) (client : Client)
  : M (option Result) :=
  try_except
    (response <- models_generate_content client
                   {| model := MODEL; contents := ContentsList prompt image_arg;
                      response_modalities := ["Text"; "Image"] |};
     let result := {| image := None; text := None |} in
     ps <- lift (response_parts response);
     locals <- for_each ps modify_image_part (image_arg, result);
     ret (Some (snd locals)))
    (fun e =>
       emit (StError ("Error modifying image: " +:+ exn_str e));;
       ret None).

(** ** [initialize_client] (lines 13-22) *)

Definition get {A} (f : World -> A) : M A := fun w => (Val (f w), w).

(** [os.environ[k] = v] *)
Definition set_environ (k v : string) : M unit :=
  fun w => (Val tt, put_environ k v w).

(** [st.session_state.last_generated_image = img] *)
Definition set_last_generated_image (img : Image) : M unit :=
  fun w => (Val tt, put_last_generated_image img w).

(** [d.get(k, dflt)] on a mapping. *)
Definition dict_get {V} (d : gmap string V) (k : string) (dflt : option V)
  : option V :=
  match d !! k with
  | Some v => Some v
  | None => dflt
  end.

(** The mapping behind [st.secrets], read on each access. *)
Definition st_secrets_parse : M (gmap string PyValue) :=
  fun w =>
    match secrets w with
    | NoSecretsFile err => (Raised err, w)
    | SecretsOnDisk entries => (Val entries, load_secrets w)
    | SecretsLoaded entries => (Val entries, w)
    end.

(** [st.secrets.get(k, dflt)]: [self[k]], and [dflt] on [KeyError]. *)
Definition st_secrets_get (k : string) (dflt : option PyValue)
  : M (option PyValue) :=
  entries <- st_secrets_parse;
  ret (dict_get entries k dflt).

(** [os.environ[k] = v], which refuses what is not a [str]; returns the
    string that was stored. *)
Definition set_environ_value (k : string) (v : option PyValue) : M string :=
  match v with
  | Some (PyStr s) => set_environ k s;; ret s
  | Some (PyOther type_name _ _) =>
      lift (inl (TypeError ("str expected, not " +:+ type_name)))
  | None => lift (inl (TypeError "str expected, not NoneType"))
  end.

(** The argument [os.environ.get(...)] of line 14 is evaluated before
    [st.secrets.get] is entered. *)
Definition initialize_client (inp : Inputs) : M Client :=
  env <- get environ;
  let dflt := PyStr <$> dict_get env GOOGLE_API_KEY None in
  found <- st_secrets_get GOOGLE_API_KEY dflt;
  api_key_var <- (if value_truthy found then ret found
                  else
                    let typed := api_key_input inp in
                    if truthy (Some typed) then ret (Some (PyStr typed))
                    else
                      emit (StWarning "Please enter your Google API Key to continue");;
                      st_stop;;
                      ret (Some (PyStr typed)));
  key <- set_environ_value GOOGLE_API_KEY api_key_var;
  ret {| api_key := key |}.

(** ** [main] (lines 75-165)

    One run of the script. Widgets that read user input are the fields
    of [Inputs]; rendering calls append to [ui]. In
    [if result and result["image"]] the dict [result] has two keys and
    is truthy whenever it is not [None], and an image object is truthy,
    so the test holds exactly for [Some] result with [Some] image. *)

Definition main (inp : Inputs) : M unit :=
  emit (StTitle "Gemini Image Creator");;
  client <- initialize_client inp;
  match page_radio inp with
  | GenerateNewImage =>
      emit (StHeader "Generate a New Image");;
      let prompt := prompt_input inp in
      if generate_button inp then
        result <- generate_image prompt client;
        match result with
        | Some {| image := Some img; text := txt |} =>
            emit (StImage img "Generated Image");;
            let img_bytes := Image_save_png img in
            emit (StDownloadButton "Download Image" img_bytes
                    "gemini-generated-image.png" "image/png");;
            (if truthy txt
             then emit (StModelResponse "Model Response:" (default EmptyString txt))
             else ret tt);;
            set_last_generated_image img
        | _ => ret tt
        end
      else ret tt
  | ModifyExistingImage =>
      emit (StHeader "Modify an Image");;
      let uploaded := uploaded_file inp in
      last <- get last_generated_image;
      let use_last_generated :=
        match last with
        | Some _ => use_last_checkbox inp
        | None => false
        end in
      chosen <- match uploaded with
                | Some f =>
                    img <- lift (Image_open f);
                    emit (StImage img "Uploaded Image");;
                    ret (Some img)
                | None =>
                    if use_last_generated then
                      img <- lift (match last with
                                   | Some img => inr img
                                   | None => inl (AttributeError
                                       "st.session_state has no attribute 'last_generated_image'")
                                   end);
                      emit (StImage img "Last Generated Image");;
                      ret (Some img)
                    else
                      emit (StInfo "Please upload an image or generate one first");;
                      ret None
                end;
      match chosen with
      | None => ret tt                        (* the [return] of line 135 *)
      | Some image_var =>
          let modification_prompt := modification_input inp in
          if modify_button inp then
            result <- modify_image modification_prompt image_var client;
            match result with
            | Some {| image := Some img; text := txt |} =>
                emit (StImage img "Modified Image");;
                let img_bytes := Image_save_png img in
                emit (StDownloadButton "Download Modified Image" img_bytes
                        "gemini-modified-image.png" "image/png");;
                (if truthy txt
                 then emit (StModelResponse "Model Response:" (default EmptyString txt))
                 else ret tt);;
                set_last_generated_image img
            | _ => ret tt
            end
          else ret tt
      end
  end.


(** ** Reference definitions

    [last_write_wins] follows the wording of the specification: of the
    ordered parts, the last text and the last decoded inline image are
    kept. A part counts as a text part when it carries text, and as an
    inline-image part when it carries inline data and no text. *)

Definition text_of (p : Part) : option string := part_text p.

Definition image_payload_of (p : Part) : option bytes :=
  match part_text p with
  | Some _ => None
  | None => (fun blob => BytesIO (data blob)) <$> inline_data p
  end.

(** Decode every payload in order; the first failure is the error. *)
Fixpoint decode_all (payloads : list bytes) : PyExn + list Image :=
  match payloads with
  | [] => inr []
  | b :: rest =>
      match Image_open b with
      | inl e => inl e
      | inr img =>
          match decode_all rest with
          | inl e => inl e
          | inr imgs => inr (img :: imgs)
          end
      end
  end.

Definition last_write_wins (ps : list Part) : PyExn + Result :=
  match decode_all (omap image_payload_of ps) with
  | inl e => inl e
  | inr imgs => inr {| image := last imgs; text := last (omap text_of ps) |}
  end.

(** What a remote answer decodes to: the first error on the way, or
    the last-write-wins record of its parts. *)
Definition decode_response (answer : PyExn + Response) : PyExn + Result :=
  match answer with
  | inl e => inl e
  | inr response =>
      match response_parts response with
      | inl e => inl e
      | inr ps => last_write_wins ps
      end
  end.

Definition generate_request (prompt : string) : Request :=
  {| model := MODEL; contents := ContentsPrompt prompt;
     response_modalities := ["Text"; "Image"] |}.

Definition modify_request (prompt : string) (src : Image) : Request :=
  {| model := MODEL; contents := ContentsList prompt src;
     response_modalities := ["Text"; "Image"] |}.

(** The entry of the secret store under the key name, if there is a
    store and it has one. *)
Definition secret_entry (sec : SecretsState) : option PyValue :=
  match secrets_entries sec with
  | Some entries => entries !! GOOGLE_API_KEY
  | None => None
  end.

(** The credential by strict priority, as the specification words it:
    the first of secret store, environment variable and interactive
    prompt that supplies a non-empty key. *)
Definition credential_by_priority (sec : SecretsState) (env : gmap string string)
    (typed : string) : option string :=
  let stored := match secret_entry sec with
                | Some (PyStr s) => Some s
                | _ => None
                end in
  if truthy stored then stored
  else if truthy (env !! GOOGLE_API_KEY) then env !! GOOGLE_API_KEY
  else if truthy (Some typed) then Some typed
  else None.

(** What line 14 binds [api_key] to when the store has [entries]. *)
Definition found_key (entries : gmap string PyValue) (env : gmap string string)
  : option PyValue :=
  dict_get entries GOOGLE_API_KEY (PyStr <$> dict_get env GOOGLE_API_KEY None).

(** The key [initialize_client] returns a client for, when it does
    (lines 14-22). *)
Definition credential (sec : SecretsState) (env : gmap string string)
    (typed : string) : option string :=
  match secrets_entries sec with
  | None => None
  | Some entries =>
      let found := found_key entries env in
      if value_truthy found then
        match found with
        | Some (PyStr s) => Some s
        | _ => None
        end
      else if truthy (Some typed) then Some typed
      else None
  end.

(** How [initialize_client] ends when it returns no client: the error
    of the secrets loader, the [TypeError] of line 21 for a truthy entry
    that is not a string, or the stop of line 19. *)
Definition initialize_failure (w : World) : Outcome Client * World :=
  match secrets w with
  | NoSecretsFile err => (Raised err, w)
  | SecretsOnDisk entries | SecretsLoaded entries =>
      match found_key entries (environ w) with
      | Some (PyOther type_name true _) =>
          (Raised (TypeError ("str expected, not " +:+ type_name)), load_secrets w)
      | _ =>
          (Stopped,
           add_ui (StWarning "Please enter your Google API Key to continue")
                  (load_secrets w))
      end
  end.

(** The source image the modify page settles on (lines 127-135). *)
Definition modify_source (inp : Inputs) (w : World) : option (PyExn + Image) :=
  match uploaded_file inp with
  | Some f => Some (Image_open f)
  | None =>
      match last_generated_image w with
      | Some img => if use_last_checkbox inp then Some (inr img) else None
      | None => None
      end
  end.

(** A part with its inline data removed. *)
Definition without_inline_data (p : Part) : Part :=
  {| part_text := part_text p; inline_data := None |}.

(** The outcome of a computation with its value mapped through [f]. *)
Definition map_outcome {A B} (f : A -> B) (o : Outcome A * World)
  : Outcome B * World :=
  match o with
  | (Val a, w) => (Val (f a), w)
  | (Raised e, w) => (Raised e, w)
  | (Stopped, w) => (Stopped, w)
  end.

(** The world once line 76 has rendered the title. *)
Definition title_shown (w : World) : World :=
  add_ui (StTitle "Gemini Image Creator") w.

Definition is_download (ev : UiEvent) : bool :=
  match ev with
  | StDownloadButton _ _ _ _ => true
  | _ => false
  end.

End App.

(** ** Sample data

    A small instance of the external collaborators: an image is
    represented by the bytes it was opened from, and the empty buffer
    is the one input [Image.open] refuses. *)

Module Sample.

Definition Img : Type := bytes.

Definition open (b : bytes) : PyExn + Img :=
  match b with
  | [] => inl {| exn_class := "UnidentifiedImageError";
                 exn_str := "cannot identify image file" |}
  | _ => inr b
  end.

Definition save_png (img : Img) : bytes := img.

Definition text_part (s : string) : Part :=
  {| part_text := Some s; inline_data := None |}.

Definition image_part (b : bytes) : Part :=
  {| part_text := None;
     inline_data := Some {| data := Some b; mime_type := Some "image/png" |} |}.

Definition respond (ps : list Part) : Response :=
  {| candidates := Some [ {| content := Some {| parts := Some ps |} |} ] |}.

Definition X : Img := [x89; x50; x4e; x47].
Definition Y : Img := [xff; xd8; xff].

Definition parts_a_X_b : list Part := [text_part "a"; image_part X; text_part "b"].

(** Remote behaviours. *)
Definition remote_a_X_b : Client -> @Request Img -> PyExn + Response :=
  fun _ _ => inr (respond parts_a_X_b).

Definition remote_text_only : Client -> @Request Img -> PyExn + Response :=
  fun _ _ => inr (respond [text_part "I cannot draw that."]).

Definition remote_down : Client -> @Request Img -> PyExn + Response :=
  fun _ _ => inl {| exn_class := "ServerError"; exn_str := "503 UNAVAILABLE" |}.

Definition client0 : Client := {| api_key := "env-key" |}.

(** A session with a key in the environment and nothing generated yet. *)
Definition world0 : @World Img :=
  {| secrets := SecretsLoaded ∅; environ := {[ GOOGLE_API_KEY := "env-key" ]};
     last_generated_image := None; ui := []; calls := [] |}.

(** The same session after an image [Y] was generated. *)
Definition world_Y : @World Img :=
  {| secrets := SecretsLoaded ∅; environ := {[ GOOGLE_API_KEY := "env-key" ]};
     last_generated_image := Some Y; ui := []; calls := [] |}.

(** A session whose secrets file, not read yet, holds an empty key
    while the environment holds a usable one. *)
Definition world_empty_secret : @World Img :=
  {| secrets := SecretsOnDisk {[ GOOGLE_API_KEY := PyStr EmptyString ]};
     environ := {[ GOOGLE_API_KEY := "env-key" ]};
     last_generated_image := None; ui := []; calls := [] |}.

Definition generate_click : Inputs :=
  {| api_key_input := EmptyString; page_radio := GenerateNewImage;
     prompt_input := "a city in perspective"; generate_button := true;
     uploaded_file := None; use_last_checkbox := true;
     modification_input := "Make the buildings taller"; modify_button := false |}.

Definition modify_click : Inputs :=
  {| api_key_input := EmptyString; page_radio := ModifyExistingImage;
     prompt_input := "a city in perspective"; generate_button := false;
     uploaded_file := None; use_last_checkbox := true;
     modification_input := "Make the buildings taller"; modify_button := true |}.

Definition typed_key : Inputs :=
  {| api_key_input := "typed-key"; page_radio := GenerateNewImage;
     prompt_input := "a city in perspective"; generate_button := false;
     uploaded_file := None; use_last_checkbox := true;
     modification_input := "Make the buildings taller"; modify_button := false |}.

(** The modify page with an uploaded file, the reuse box still checked. *)
Definition upload_click : Inputs :=
  {| api_key_input := EmptyString; page_radio := ModifyExistingImage;
     prompt_input := "a city in perspective"; generate_button := false;
     uploaded_file := Some X; use_last_checkbox := true;
     modification_input := "Make the buildings taller"; modify_button := true |}.

(** The same with a file [Image.open] refuses. *)
Definition corrupt_upload_click : Inputs :=
  {| api_key_input := EmptyString; page_radio := ModifyExistingImage;
     prompt_input := "a city in perspective"; generate_button := false;
     uploaded_file := Some []; use_last_checkbox := true;
     modification_input := "Make the buildings taller"; modify_button := true |}.

(** A session without any key, and the input that types one. *)
Definition world_no_key : @World Img :=
  {| secrets := SecretsLoaded ∅; environ := ∅;
     last_generated_image := None; ui := []; calls := [] |}.

(** A session with no secrets file and a key in the environment. *)
Definition world_no_secrets_file : @World Img :=
  {| secrets := NoSecretsFile {| exn_class := "StreamlitSecretNotFoundError";
                                 exn_str := "No secrets found." |};
     environ := {[ GOOGLE_API_KEY := "env-key" ]};
     last_generated_image := None; ui := []; calls := [] |}.

(** A session whose secrets file gives the key as a number. *)
Definition world_number_secret : @World Img :=
  {| secrets := SecretsOnDisk
                  {[ GOOGLE_API_KEY := PyOther "int" true (Some "12345") ]};
     environ := {[ GOOGLE_API_KEY := "env-key" ]};
     last_generated_image := None; ui := []; calls := [] |}.

(** A session whose secrets file, not read yet, holds another entry. *)
Definition world_other_secret : @World Img :=
  {| secrets := SecretsOnDisk {[ "OTHER_TOKEN" := PyStr "abc" ]};
     environ := {[ GOOGLE_API_KEY := "env-key" ]};
     last_generated_image := None; ui := []; calls := [] |}.

(** A response whose second image payload is empty. *)
Definition parts_X_bad_Y : list Part :=
  [text_part "a"; image_part X; image_part []; image_part Y; text_part "b"].

Definition remote_X_bad_Y : Client -> @Request Img -> PyExn + Response :=
  fun _ _ => inr (respond parts_X_bad_Y).

End Sample.

(** * Properties *)

Section Properties.

Context {Image : Type}.
Variable Image_open : bytes -> PyExn + Image.
Variable Image_save_png : Image -> bytes.
Variable generate_content : Client -> @Request Image -> PyExn + Response.

Implicit Types (w : @World Image) (r : @Result Image) (ps : list Part).

(** ** The two decoding loops *)

Lemma generate_loop_spec ps r0 w :
  for_each ps (generate_image_part Image_open) r0 w =
  match decode_all Image_open (omap image_payload_of ps) with
  | inl e => (Raised e, w)
  | inr imgs =>
      (Val {| image := from_option Some (image r0) (last imgs);
              text := from_option Some (text r0) (last (omap text_of ps)) |}, w)
  end.
Proof.
  revert r0. induction ps as [|p ps IH]; intros [i0 t0].
  - reflexivity.
  - cbn [for_each omap list_omap]. unfold bind, generate_image_part at 1.
    unfold image_payload_of at 1, text_of at 1.
    destruct (part_text p) as [t|]; cbn.
    + rewrite IH. destruct (decode_all _ _) as [e|imgs]; [reflexivity|].
      cbn. rewrite last_cons. by destruct (last (omap text_of ps)).
    + destruct (inline_data p) as [blob|]; cbn.
      * unfold lift. destruct (Image_open (BytesIO (data blob))) as [e|img]; cbn;
          [reflexivity|].
        rewrite IH. destruct (decode_all _ _) as [e|imgs]; [reflexivity|].
        cbn. rewrite last_cons. by destruct (last imgs).
      * by rewrite IH.
Qed.

(** The loop of [modify_image] carries the rebound parameter along; its
    [result] component is computed as in the loop of [generate_image]. *)
Lemma modify_loop_spec ps (i0 : Image) r0 w :
  map_outcome snd (for_each ps (modify_image_part Image_open) (i0, r0) w) =
  for_each ps (generate_image_part Image_open) r0 w.
Proof.
  revert i0 r0 w. induction ps as [|p ps IH]; intros i0 r0 w.
  - reflexivity.
  - cbn [for_each]. unfold bind.
    unfold modify_image_part at 1, generate_image_part at 1.
    destruct (part_text p) as [t|]; cbn; [apply IH|].
    destruct (inline_data p) as [blob|]; cbn; [|apply IH].
    unfold lift. destruct (Image_open (BytesIO (data blob))) as [e|img]; cbn;
      [reflexivity|apply IH].
Qed.

Lemma from_option_Some_None {A} (o : option A) : from_option Some None o = o.
Proof. by destruct o. Qed.

(** ** [generate_image] and [modify_image] in closed form *)

Lemma generate_image_spec prompt client w :
  generate_image Image_open generate_content prompt client w =
  let rq := generate_request prompt in
  match decode_response Image_open (generate_content client rq) with
  | inr r => (Val (Some r), add_call client rq w)
  | inl e => (Val None,
              add_ui (StError ("Error generating image: " +:+ exn_str e))
                     (add_call client rq w))
  end.
Proof.
  unfold generate_image, try_except, bind, models_generate_content,
    decode_response, last_write_wins. cbn zeta. fold (@generate_request Image prompt).
  destruct (generate_content client (generate_request prompt)) as [e|response];
    [reflexivity|].
  unfold lift at 1. destruct (response_parts response) as [e|ps]; [reflexivity|].
  rewrite generate_loop_spec. cbn [image text].
  destruct (decode_all _ _) as [e|imgs]; [reflexivity|].
  by rewrite 2!from_option_Some_None.
Qed.

Lemma modify_image_spec prompt (src : Image) client w :
  modify_image Image_open generate_content prompt src client w =
  let rq := modify_request prompt src in
  match decode_response Image_open (generate_content client rq) with
  | inr r => (Val (Some r), add_call client rq w)
  | inl e => (Val None,
              add_ui (StError ("Error modifying image: " +:+ exn_str e))
                     (add_call client rq w))
  end.
Proof.
  unfold modify_image, try_except, bind, models_generate_content,
    decode_response, last_write_wins. cbn zeta. fold (@modify_request Image prompt src).
  destruct (generate_content client (modify_request prompt src)) as [e|response];
    [reflexivity|].
  unfold lift at 1. destruct (response_parts response) as [e|ps]; [reflexivity|].
  pose proof (modify_loop_spec ps src {| image := None; text := None |}
                (add_call client (modify_request prompt src) w)) as Hloop.
  rewrite generate_loop_spec in Hloop. cbn [image text] in Hloop.
  destruct (for_each ps _ _ _) as [[[i r]| |] w'];
    destruct (decode_all _ _) as [e'|imgs]; cbn in Hloop; simplify_eq;
    [|reflexivity].
  by rewrite 2!from_option_Some_None.
Qed.

(** ** Decoding *)

Lemma decode_all_inr payloads imgs img :
  decode_all Image_open payloads = inr imgs -> img ∈ imgs ->
  ∃ b, b ∈ payloads ∧ Image_open b = inr img.
Proof.
  revert imgs. induction payloads as [|b rest IH]; intros imgs Hdec Hin; cbn in Hdec.
  - simplify_eq. by apply elem_of_nil in Hin.
  - destruct (Image_open b) as [e|img0] eqn:Hb; [done|].
    destruct (decode_all Image_open rest) as [e|imgs0]; [done|].
    simplify_eq. apply elem_of_cons in Hin as [->|Hin].
    + exists b. split; [left|done].
    + destruct (IH _ eq_refl Hin) as (b' & Hb' & Hopen).
      exists b'. split; [by right|done].
Qed.

Lemma decode_all_inl payloads e :
  decode_all Image_open payloads = inl e ->
  ∃ b, b ∈ payloads ∧ Image_open b = inl e.
Proof.
  induction payloads as [|b rest IH]; intros Hdec; cbn in Hdec; [done|].
  destruct (Image_open b) as [e0|img0] eqn:Hb.
  - simplify_eq. exists b. split; [left|done].
  - destruct (decode_all Image_open rest) as [e0|imgs0]; [|done].
    simplify_eq. destruct (IH eq_refl) as (b' & Hb' & Hopen).
    exists b'. split; [by right|done].
Qed.

Lemma image_payload_of_Some p b :
  image_payload_of p = Some b ->
  ∃ blob, part_text p = None ∧ inline_data p = Some blob ∧ b = BytesIO (data blob).
Proof.
  unfold image_payload_of. destruct (part_text p); [done|].
  destruct (inline_data p) as [blob|]; [|done]. cbn. intros [= <-]. eauto.
Qed.

Lemma for_each_replace {A S} (body : A -> S -> @M Image S) x y before after s w :
  (∀ s' w', body x s' w' = body y s' w') ->
  for_each (before ++ x :: after) body s w = for_each (before ++ y :: after) body s w.
Proof.
  intros Hxy. revert s w. induction before as [|z before IH]; intros s w; cbn.
  - unfold bind. by rewrite Hxy.
  - unfold bind. destruct (body z s w) as [[s'| |] w']; [apply IH|done|done].
Qed.

(** C1: [generate_image] keeps the last text and the last inline image
    of the response. When the remote call answers with parts [ps], the
    call returns the record made of the last decoded image payload and
    the last text of [ps] (so [text "a"; image X; text "b"] gives
    [{image: X, text: "b"}]); if a payload does not decode, no result is
    returned and the error is reported. *)
Theorem generate_image_last_write_wins prompt client w response ps :
  generate_content client (generate_request prompt) = inr response ->
  response_parts response = inr ps ->
  generate_image Image_open generate_content prompt client w =
  match decode_all Image_open (omap image_payload_of ps) with
  | inr imgs =>
      (Val (Some {| image := last imgs; text := last (omap text_of ps) |}),
       add_call client (generate_request prompt) w)
  | inl e =>
      (Val None,
       add_ui (StError ("Error generating image: " +:+ exn_str e))
              (add_call client (generate_request prompt) w))
  end.
Proof.
  intros Hcall Hparts. rewrite generate_image_spec. cbn zeta.
  unfold decode_response, last_write_wins. rewrite Hcall, Hparts.
  by destruct (decode_all _ _).
Qed.

(** C2: whatever the prompt and whatever the remote call does,
    [generate_image] returns normally. Either it returns a record whose
    image is [None] or the decoding of an inline payload of the
    response and whose text is [None] or the text of a part of the
    response, and nothing is reported; or it returns [None] after
    reporting ["Error generating image: "] followed by the text of the
    exception that was caught, which is the exception of the remote
    call, of reading the parts of the response, or of decoding a
    payload. It never ends in [Raised] or [Stopped]. *)
Theorem generate_image_never_raises prompt client w :
  let rq := generate_request prompt in
  (∃ r, generate_image Image_open generate_content prompt client w
        = (Val (Some r), add_call client rq w)
      ∧ ∃ response ps,
          generate_content client rq = inr response
        ∧ response_parts response = inr ps
        ∧ (image r = None ∨
           ∃ p blob img, p ∈ ps ∧ inline_data p = Some blob
             ∧ Image_open (BytesIO (data blob)) = inr img ∧ image r = Some img)
        ∧ (text r = None ∨
           ∃ p t, p ∈ ps ∧ part_text p = Some t ∧ text r = Some t))
  ∨
  (∃ e, generate_image Image_open generate_content prompt client w
        = (Val None,
           add_ui (StError ("Error generating image: " +:+ exn_str e))
                  (add_call client rq w))
      ∧ (generate_content client rq = inl e
         ∨ ∃ response, generate_content client rq = inr response
             ∧ (response_parts response = inl e
                ∨ ∃ ps p blob, response_parts response = inr ps ∧ p ∈ ps
                    ∧ inline_data p = Some blob
                    ∧ Image_open (BytesIO (data blob)) = inl e))).
Proof.
  intros rq. rewrite generate_image_spec. cbn zeta. fold rq.
  unfold decode_response, last_write_wins.
  destruct (generate_content client rq) as [e|response] eqn:Hcall.
  { right. exists e. split; [done|by left]. }
  destruct (response_parts response) as [e|ps] eqn:Hparts.
  { right. exists e. split; [done|]. right. exists response. split; [done|by left]. }
  destruct (decode_all Image_open (omap image_payload_of ps)) as [e|imgs] eqn:Hdec.
  - right. exists e. split; [done|]. right. exists response. split; [done|]. right.
    apply decode_all_inl in Hdec as (b & Hb & Hopen).
    apply list_elem_of_omap in Hb as (p & Hp & Hpay).
    apply image_payload_of_Some in Hpay as (blob & _ & Hblob & ->).
    by exists ps, p, blob.
  - left. eexists. split; [done|]. exists response, ps. do 2 (split; [done|]). cbn.
    split.
    + destruct (last imgs) as [img|] eqn:Hlast; [right|by left].
      apply last_Some_elem_of in Hlast.
      destruct (decode_all_inr _ _ _ Hdec Hlast) as (b & Hb & Hopen).
      apply list_elem_of_omap in Hb as (p & Hp & Hpay).
      apply image_payload_of_Some in Hpay as (blob & _ & Hblob & ->).
      by exists p, blob, img.
    + destruct (last (omap text_of ps)) as [t|] eqn:Hlast; [right|by left].
      apply last_Some_elem_of, list_elem_of_omap in Hlast as (p & Hp & Ht).
      by exists p, t.
Qed.

(** C3: [modify_image] has the contract of [generate_image]. Its
    request carries the pair (instruction, source image) where that of
    [generate_image] carries the bare prompt; its loop decodes every
    list of parts to the record the loop of [generate_image] decodes it
    to; and when the remote call answers both requests alike, the two
    functions return the same value: the same record, or [None] after
    reporting the same caught exception, under ["Error modifying
    image: "] in place of ["Error generating image: "]. *)
Theorem modify_image_same_contract prompt instr (src : Image) client w :
  generate_content client (generate_request prompt)
  = generate_content client (modify_request instr src) ->
  let generated := generate_image Image_open generate_content prompt client w in
  let modified := modify_image Image_open generate_content instr src client w in
  fst generated = fst modified
  ∧ contents (@generate_request Image prompt) = ContentsPrompt prompt
  ∧ contents (modify_request instr src) = ContentsList instr src
  ∧ model (@generate_request Image prompt) = model (modify_request instr src)
  ∧ response_modalities (@generate_request Image prompt)
    = response_modalities (modify_request instr src)
  ∧ (∀ ps i0 r0 w',
       map_outcome snd (for_each ps (modify_image_part Image_open) (i0, r0) w')
       = for_each ps (generate_image_part Image_open) r0 w')
  ∧ ((∃ r, generated = (Val (Some r), add_call client (generate_request prompt) w)
         ∧ modified = (Val (Some r), add_call client (modify_request instr src) w))
     ∨
     (∃ e, generated = (Val None,
                  add_ui (StError ("Error generating image: " +:+ exn_str e))
                         (add_call client (generate_request prompt) w))
         ∧ modified = (Val None,
                  add_ui (StError ("Error modifying image: " +:+ exn_str e))
                         (add_call client (modify_request instr src) w)))).
Proof.
  intros Hsame generated modified. subst generated modified.
  rewrite generate_image_spec, modify_image_spec. cbn zeta. rewrite Hsame.
  split_and!; [|done|done|done|done|apply modify_loop_spec|].
  - by destruct (decode_response _ _).
  - destruct (decode_response _ _) as [e|r]; [right; by exists e|left; by exists r].
Qed.

(** C9: a part that carries both a text and inline data is handled as
    a text part by both decoders. The loop body sets the text and
    leaves the image as it was, without opening the inline bytes; and
    in any list of parts the part can be replaced by the same part
    without its inline data without changing what the loop computes. *)
Theorem text_shadows_inline_data part t blob :
  part_text part = Some t ->
  inline_data part = Some blob ->
  (∀ r w, generate_image_part Image_open part r w
          = (Val {| image := image r; text := Some t |}, w))
  ∧ (∀ (i : Image) r w, modify_image_part Image_open part (i, r) w
          = (Val (i, {| image := image r; text := Some t |}), w))
  ∧ (∀ before after r w,
       for_each (before ++ part :: after) (generate_image_part Image_open) r w
       = for_each (before ++ without_inline_data part :: after)
                  (generate_image_part Image_open) r w)
  ∧ (∀ before after (i : Image) r w,
       for_each (before ++ part :: after) (modify_image_part Image_open) (i, r) w
       = for_each (before ++ without_inline_data part :: after)
                  (modify_image_part Image_open) (i, r) w).
Proof.
  intros Ht Hblob. split_and!.
  - intros r w. unfold generate_image_part. by rewrite Ht.
  - intros i r w. unfold modify_image_part. by rewrite Ht.
  - intros before after r w. apply for_each_replace. intros r' w'.
    unfold generate_image_part, without_inline_data. cbn. by rewrite Ht.
  - intros before after i r w. apply for_each_replace. intros [i' r'] w'.
    unfold modify_image_part, without_inline_data. cbn. by rewrite Ht.
Qed.

(** ** [initialize_client] and [main] in closed form *)

Lemma credential_nonempty sec env typed key :
  credential sec env typed = Some key -> key ≠ EmptyString.
Proof.
  unfold credential. destruct (secrets_entries sec) as [entries|]; [|done].
  cbn zeta. destruct (found_key entries env) as [[s|tn b t]|]; cbn.
  - destruct s as [|a s]; cbn.
    + destruct typed; [done|]. by intros [= <-].
    + by intros [= <-].
  - destruct b; [done|]. destruct typed; [done|]. by intros [= <-].
  - destruct typed; [done|]. by intros [= <-].
Qed.

Lemma initialize_client_spec inp w :
  initialize_client inp w =
  match credential (secrets w) (environ w) (api_key_input inp) with
  | Some key =>
      (Val {| api_key := key |}, put_environ GOOGLE_API_KEY key (load_secrets w))
  | None => initialize_failure w
  end.
Proof.
  unfold initialize_client, credential, initialize_failure, st_secrets_get,
    st_secrets_parse, load_secrets, found_key, bind, get.
  cbn zeta.
  destruct (secrets w) as [err|entries|entries] eqn:Hsec; cbn; [done| |];
    (destruct (dict_get entries GOOGLE_API_KEY _) as [[[|a s]|tn [|] t]|]; cbn;
     rewrite ?Hsec; try done;
     destruct (api_key_input inp); cbn; rewrite ?Hsec; done).
Qed.

(** A failed [initialize_client] returns no client, issues no call and
    leaves the stored image alone. *)
Lemma initialize_failure_frame w :
  (fst (initialize_failure w) = Stopped ∨ ∃ e, fst (initialize_failure w) = Raised e)
  ∧ calls (snd (initialize_failure w)) = calls w
  ∧ last_generated_image (snd (initialize_failure w)) = last_generated_image w.
Proof.
  unfold initialize_failure, load_secrets.
  destruct (secrets w) as [err|entries|entries] eqn:Hsec; cbn.
  - split_and!; [right; by eexists|done|done].
  - destruct (found_key _ _) as [[s|tn [|] t]|]; cbn;
      (split_and!; [(by left) || (right; by eexists)|done|done]).
  - destruct (found_key _ _) as [[s|tn [|] t]|]; cbn; rewrite ?Hsec;
      (split_and!; [(by left) || (right; by eexists)|done|done]).
Qed.

Lemma load_secrets_frame w :
  last_generated_image (load_secrets w) = last_generated_image w
  ∧ ui (load_secrets w) = ui w
  ∧ calls (load_secrets w) = calls w.
Proof. unfold load_secrets. by destruct (secrets w). Qed.

(** Projections through [load_secrets]. *)
Ltac unload :=
  cbn;
  rewrite ?(proj1 (load_secrets_frame _)),
          ?(proj1 (proj2 (load_secrets_frame _))),
          ?(proj2 (proj2 (load_secrets_frame _)));
  cbn.

Lemma initialize_failure_title w :
  fst (initialize_failure (title_shown w)) = fst (initialize_failure w).
Proof.
  unfold initialize_failure, title_shown. cbn.
  destruct (secrets w); [done| |]; by destruct (found_key _ _) as [[?|? [|] ?]|].
Qed.

Lemma main_not_initialized inp w :
  credential (secrets w) (environ w) (api_key_input inp) = None ->
  main Image_open Image_save_png generate_content inp w =
  (match fst (initialize_failure (title_shown w)) with
   | Raised e => Raised e
   | _ => Stopped
   end,
   snd (initialize_failure (title_shown w))).
Proof.
  intros Hcred. unfold main, bind at 1 2, emit at 1.
  rewrite initialize_client_spec. cbn [secrets environ add_ui]. rewrite Hcred.
  fold (title_shown w).
  destruct (initialize_failure_frame (title_shown w)) as ([Hs|[e He]] & _);
    destruct (initialize_failure (title_shown w)) as [o w']; cbn in *; by subst.
Qed.

(** A run that finds no key ends stopped or raised, with no remote call
    and the stored image as it was. *)
Lemma main_not_initialized_frame inp w :
  credential (secrets w) (environ w) (api_key_input inp) = None ->
  let run := main Image_open Image_save_png generate_content inp w in
  (fst run = Stopped ∨ ∃ e, fst run = Raised e)
  ∧ calls (snd run) = calls w
  ∧ last_generated_image (snd run) = last_generated_image w.
Proof.
  intros Hcred run. subst run. rewrite (main_not_initialized _ _ Hcred).
  destruct (initialize_failure_frame (title_shown w)) as ([Hs|[e He]] & Hcalls & Hlast);
    cbn [fst snd]; rewrite ?Hs, ?He; split_and!; try done;
    [by left|right; by eexists].
Qed.

Lemma main_generate inp w key :
  page_radio inp = GenerateNewImage ->
  credential (secrets w) (environ w) (api_key_input inp) = Some key ->
  main Image_open Image_save_png generate_content inp w =
  let client := {| api_key := key |} in
  let rq := generate_request (prompt_input inp) in
  let w2 := add_ui (StHeader "Generate a New Image")
              (put_environ GOOGLE_API_KEY key (load_secrets (title_shown w))) in
  if generate_button inp then
    match decode_response Image_open (generate_content client rq) with
    | inr {| image := Some img; text := txt |} =>
        let w3 := add_ui (StDownloadButton "Download Image" (Image_save_png img)
                            "gemini-generated-image.png" "image/png")
                    (add_ui (StImage img "Generated Image") (add_call client rq w2)) in
        (Val tt,
         put_last_generated_image img
           (if truthy txt
            then add_ui (StModelResponse "Model Response:" (default EmptyString txt)) w3
            else w3))
    | inr {| image := None |} => (Val tt, add_call client rq w2)
    | inl e =>
        (Val tt, add_ui (StError ("Error generating image: " +:+ exn_str e))
                        (add_call client rq w2))
    end
  else (Val tt, w2).
Proof.
  intros Hpage Hcred. unfold main, bind at 1 2, emit at 1.
  rewrite initialize_client_spec. cbn [secrets environ add_ui]. rewrite Hcred, Hpage.
  unfold bind at 1, emit at 1. cbn zeta.
  destruct (generate_button inp); [|reflexivity].
  unfold bind at 1. rewrite generate_image_spec. cbn zeta.
  destruct (decode_response _ _) as [e|[[img|] txt]]; [reflexivity| |reflexivity].
  unfold bind, emit, set_last_generated_image, ret.
  by destruct (truthy txt).
Qed.

(** What is left of the modify page once the source image is chosen
    (lines 141-165). *)
Ltac after_modify_click :=
  match goal with
  | |- context [modify_button ?inp] =>
      destruct (modify_button inp); [|reflexivity];
      unfold bind at 1; rewrite modify_image_spec; cbn zeta;
      destruct (decode_response _ _) as [?|[[?|] txt]];
        [reflexivity| |reflexivity];
      unfold bind, emit, set_last_generated_image, ret;
      by destruct (truthy txt)
  end.

Lemma main_modify inp w key :
  page_radio inp = ModifyExistingImage ->
  credential (secrets w) (environ w) (api_key_input inp) = Some key ->
  main Image_open Image_save_png generate_content inp w =
  let client := {| api_key := key |} in
  let w2 := add_ui (StHeader "Modify an Image")
              (put_environ GOOGLE_API_KEY key (load_secrets (title_shown w))) in
  match modify_source Image_open inp w with
  | None =>
      (Val tt, add_ui (StInfo "Please upload an image or generate one first") w2)
  | Some (inl e) => (Raised e, w2)
  | Some (inr src) =>
      let rq := modify_request (modification_input inp) src in
      let w3 := add_ui (StImage src (match uploaded_file inp with
                                     | Some _ => "Uploaded Image"
                                     | None => "Last Generated Image"
                                     end)) w2 in
      if modify_button inp then
        match decode_response Image_open (generate_content client rq) with
        | inr {| image := Some img; text := txt |} =>
            let w4 := add_ui (StDownloadButton "Download Modified Image"
                                (Image_save_png img)
                                "gemini-modified-image.png" "image/png")
                        (add_ui (StImage img "Modified Image") (add_call client rq w3)) in
            (Val tt,
             put_last_generated_image img
               (if truthy txt
                then add_ui (StModelResponse "Model Response:" (default EmptyString txt)) w4
                else w4))
        | inr {| image := None |} => (Val tt, add_call client rq w3)
        | inl e =>
            (Val tt, add_ui (StError ("Error modifying image: " +:+ exn_str e))
                            (add_call client rq w3))
        end
      else (Val tt, w3)
  end.
Proof.
  intros Hpage Hcred. unfold main, bind at 1 2, emit at 1.
  rewrite initialize_client_spec. cbn [secrets environ add_ui]. rewrite Hcred, Hpage.
  unfold bind at 1, emit at 1. cbn zeta. unfold bind at 1, get at 1.
  unfold modify_source. cbn [last_generated_image add_ui put_environ].
  rewrite (proj1 (load_secrets_frame _)). cbn [last_generated_image add_ui].
  destruct (uploaded_file inp) as [f|].
  - unfold bind at 1 2, lift at 1.
    destruct (Image_open f) as [e|src]; [reflexivity|].
    unfold emit at 1, bind at 1, ret at 1. after_modify_click.
  - destruct (last_generated_image w) as [prev|]; [|reflexivity].
    destruct (use_last_checkbox inp); [|reflexivity].
    unfold bind at 1 2, lift at 1, emit at 1, bind at 1, ret at 1.
    after_modify_click.
Qed.

(** ** The credential *)

(** C4 (amended): provided a secrets file exists and its entry under
    the key name, if any, is a non-empty string, or is empty while the
    environment variable holds no key either, the key is obtained in
    priority order from the secret store, the environment variable and
    the interactive prompt: the first of the three that supplies a
    non-empty key is used and written back to the environment. When a
    secrets file exists, has no truthy entry that is not a string, and
    none of the three supplies a key, a warning is shown, the run stops
    and issues no remote call. Every remote call a run of [main] issues
    carries a client with a non-empty key. *)
Theorem credential_source_order inp w :
  let by_priority :=
    credential_by_priority (secrets w) (environ w) (api_key_input inp) in
  let run := main Image_open Image_save_png generate_content inp w in
  (is_Some (secrets_entries (secrets w)) ->
   (∀ v, secret_entry (secrets w) = Some v ->
         (∃ s, v = PyStr s ∧ s ≠ EmptyString)
         ∨ (value_truthy (Some v) = false
            ∧ truthy (environ w !! GOOGLE_API_KEY) = false)) ->
     initialize_client inp w =
     match by_priority with
     | Some key =>
         (Val {| api_key := key |},
          put_environ GOOGLE_API_KEY key (load_secrets w))
     | None =>
         (Stopped,
          add_ui (StWarning "Please enter your Google API Key to continue")
                 (load_secrets w))
     end)
  ∧ (is_Some (secrets_entries (secrets w)) ->
     (∀ type_name t, secret_entry (secrets w) ≠ Some (PyOther type_name true t)) ->
     by_priority = None ->
       initialize_client inp w
       = (Stopped,
          add_ui (StWarning "Please enter your Google API Key to continue")
                 (load_secrets w))
       ∧ fst run = Stopped
       ∧ calls (snd run) = calls w)
  ∧ (∀ client rq,
       (client, rq) ∈ calls (snd run) ->
       (client, rq) ∈ calls w ∨ api_key client ≠ EmptyString).
Proof.
  cbn zeta. split_and!.
  - intros Hsome Hentry. rewrite initialize_client_spec. revert Hsome Hentry.
    unfold credential, credential_by_priority, secret_entry, initialize_failure,
      found_key, dict_get, load_secrets.
    destruct (secrets w) as [err|entries|entries]; cbn [secrets_entries];
      [by intros [? ?]| |]; intros _;
      (destruct (entries !! GOOGLE_API_KEY) as [[[|a s]|type_name [|] t]|];
       cbn; intros Hentry;
       [destruct (Hentry _ eq_refl) as [(s' & Heq & Hs)|[Hfalse Henv]];
          simplify_eq; rewrite Henv; by destruct (api_key_input inp)
       |done
       |destruct (Hentry _ eq_refl) as [(s' & Heq & Hs)|[Hfalse Henv]];
          simplify_eq
       |destruct (Hentry _ eq_refl) as [(s' & Heq & Hs)|[Hfalse Henv]];
          simplify_eq; rewrite Henv; by destruct (api_key_input inp)
       |destruct (environ w !! GOOGLE_API_KEY) as [[|a k]|]; cbn; try done;
          by destruct (api_key_input inp)]).
  - intros Hsome Hentry Hnone.
    assert (Hcred : credential (secrets w) (environ w) (api_key_input inp) = None
                    ∧ initialize_failure w
                      = (Stopped,
                         add_ui (StWarning "Please enter your Google API Key to continue")
                                (load_secrets w))).
    { revert Hsome Hentry Hnone.
      unfold credential, credential_by_priority, secret_entry,
        initialize_failure, found_key, dict_get, load_secrets.
      destruct (secrets w) as [err|entries|entries]; cbn [secrets_entries];
        [by intros [? ?]| |]; intros _;
        (destruct (entries !! GOOGLE_API_KEY) as [[[|a s]|type_name [|] t]|];
         cbn; intros Hentry;
         try (by destruct (Hentry type_name t));
         destruct (environ w !! GOOGLE_API_KEY) as [[|a' k]|]; cbn; try done;
         by destruct (api_key_input inp)). }
    destruct Hcred as [Hcred Hfail].
    rewrite initialize_client_spec, Hcred, Hfail. split; [done|].
    destruct (main_not_initialized_frame _ _ Hcred) as (_ & Hcalls & _).
    split; [|exact Hcalls].
    rewrite (main_not_initialized _ _ Hcred). cbn [fst].
    by rewrite initialize_failure_title, Hfail.
  - intros client rq.
    destruct (credential (secrets w) (environ w) (api_key_input inp)) as [key|] eqn:Hcred.
    + pose proof (credential_nonempty _ _ _ _ Hcred) as Hkey.
      destruct (page_radio inp) eqn:Hpage.
      * rewrite (main_generate _ _ _ Hpage Hcred). cbn zeta.
        destruct (generate_button inp);
          [|cbn; rewrite (proj2 (proj2 (load_secrets_frame _))); by left].
        destruct (decode_response _ _) as [e|[[img|] txt]]; [| destruct (truthy txt) |];
          cbn; rewrite (proj2 (proj2 (load_secrets_frame _))), elem_of_app,
            list_elem_of_singleton;
          (intros [?|[= -> _]]; [by left|by right]).
      * rewrite (main_modify _ _ _ Hpage Hcred). cbn zeta.
        destruct (modify_source _ _ _) as [[e|src]|];
          [cbn; rewrite (proj2 (proj2 (load_secrets_frame _))); by left|
          |cbn; rewrite (proj2 (proj2 (load_secrets_frame _))); by left].
        destruct (modify_button inp);
          [|cbn; rewrite (proj2 (proj2 (load_secrets_frame _))); by left].
        destruct (decode_response _ _) as [e|[[img|] txt]]; [| destruct (truthy txt) |];
          cbn; rewrite (proj2 (proj2 (load_secrets_frame _))), elem_of_app,
            list_elem_of_singleton;
          (intros [?|[= -> _]]; [by left|by right]).
    + destruct (main_not_initialized_frame _ _ Hcred) as (_ & -> & _). by left.
Qed.

(** ** The pages of [main] *)

(** C5: on the modify page with no uploaded file and no reusable last
    image (none stored, or the box left unchecked), a run issues no
    remote call and leaves the stored image alone; once the client is
    initialised it ends normally after showing the guidance
    ["Please upload an image or generate one first"]. *)
Theorem modify_without_source_image inp w :
  page_radio inp = ModifyExistingImage ->
  uploaded_file inp = None ->
  last_generated_image w = None ∨ use_last_checkbox inp = false ->
  let run := main Image_open Image_save_png generate_content inp w in
  calls (snd run) = calls w
  ∧ last_generated_image (snd run) = last_generated_image w
  ∧ (∀ key,
       credential (secrets w) (environ w) (api_key_input inp) = Some key ->
       run = (Val tt,
              add_ui (StInfo "Please upload an image or generate one first")
                (add_ui (StHeader "Modify an Image")
                   (put_environ GOOGLE_API_KEY key (load_secrets (title_shown w)))))).
Proof.
  intros Hpage Hup Hlast run. subst run.
  assert (Hsrc : modify_source Image_open inp w = None).
  { unfold modify_source. rewrite Hup. destruct Hlast as [-> | ->]; [done|].
    by destruct (last_generated_image w). }
  destruct (credential (secrets w) (environ w) (api_key_input inp)) as [key|] eqn:Hcred.
  - rewrite (main_modify _ _ _ Hpage Hcred). cbn zeta. rewrite Hsrc.
    split_and!; [by unload|by unload|]. by intros ? [= <-].
  - destruct (main_not_initialized_frame _ _ Hcred) as (_ & Hcalls & Hlast').
    by split_and!.
Qed.

(** C7: the single slot [last_generated_image] is written by every
    generation and every modification that returns an image, and it is
    what the modify page reads when the last image is reused: with no
    upload, a stored image and the box checked, the request of the run
    carries the stored image. *)
Theorem last_image_slot_written_and_read inp w key :
  credential (secrets w) (environ w) (api_key_input inp) = Some key ->
  let client := {| api_key := key |} in
  let run := main Image_open Image_save_png generate_content inp w in
  (∀ w1 img txt,
     page_radio inp = GenerateNewImage -> generate_button inp = true ->
     fst (generate_image Image_open generate_content (prompt_input inp) client w1)
     = Val (Some {| image := Some img; text := txt |}) ->
     fst run = Val tt ∧ last_generated_image (snd run) = Some img)
  ∧ (∀ src w1 img txt,
     page_radio inp = ModifyExistingImage -> modify_button inp = true ->
     modify_source Image_open inp w = Some (inr src) ->
     fst (modify_image Image_open generate_content (modification_input inp) src
            client w1)
     = Val (Some {| image := Some img; text := txt |}) ->
     fst run = Val tt ∧ last_generated_image (snd run) = Some img)
  ∧ (∀ prev,
     page_radio inp = ModifyExistingImage -> modify_button inp = true ->
     uploaded_file inp = None -> use_last_checkbox inp = true ->
     last_generated_image w = Some prev ->
     modify_source Image_open inp w = Some (inr prev)
     ∧ calls (snd run)
       = (calls w ++ [(client, modify_request (modification_input inp) prev)])%list).
Proof.
  intros Hcred client run. subst client run. split_and!.
  - intros w1 img txt Hpage Hbtn Hres.
    rewrite generate_image_spec in Hres. cbn zeta in Hres.
    rewrite (main_generate _ _ _ Hpage Hcred). cbn zeta. rewrite Hbtn.
    destruct (decode_response _ _) as [e|r]; cbn in Hres; simplify_eq.
    by destruct (truthy txt).
  - intros src w1 img txt Hpage Hbtn Hsrc Hres.
    rewrite modify_image_spec in Hres. cbn zeta in Hres.
    rewrite (main_modify _ _ _ Hpage Hcred). cbn zeta. rewrite Hsrc, Hbtn.
    destruct (decode_response _ _) as [e|r]; cbn in Hres; simplify_eq.
    by destruct (truthy txt).
  - intros prev Hpage Hbtn Hup Hbox Hlast.
    assert (Hsrc : modify_source Image_open inp w = Some (inr prev)).
    { unfold modify_source. by rewrite Hup, Hlast, Hbox. }
    split; [done|].
    rewrite (main_modify _ _ _ Hpage Hcred). cbn zeta. rewrite Hsrc, Hbtn.
    destruct (decode_response _ _) as [e|[[img|] txt]]; [by unload| |by unload].
    destruct (truthy txt); by unload.
Qed.

(** C8: when the response has no part with inline data, every result
    [generate_image] returns has [None] as its image (and when the parts
    of the response can be read, it does return such a result, with the
    last text), and the run of the generate page offers no download
    button. *)
Theorem no_image_part_no_download inp w key response :
  page_radio inp = GenerateNewImage ->
  credential (secrets w) (environ w) (api_key_input inp) = Some key ->
  let client := {| api_key := key |} in
  let prompt := prompt_input inp in
  generate_content client (generate_request prompt) = inr response ->
  (∀ ps, response_parts response = inr ps ->
         Forall (fun p => inline_data p = None) ps) ->
  let run := main Image_open Image_save_png generate_content inp w in
  (∀ w' r, fst (generate_image Image_open generate_content prompt client w')
           = Val (Some r) -> image r = None)
  ∧ (∀ ps w', response_parts response = inr ps ->
       generate_image Image_open generate_content prompt client w'
       = (Val (Some {| image := None; text := last (omap text_of ps) |}),
          add_call client (generate_request prompt) w'))
  ∧ (∀ ev, ev ∈ ui (snd run) -> is_download ev = true -> ev ∈ ui w).
Proof.
  intros Hpage Hcred client prompt Hcall Hnone run. subst client prompt run.
  assert (Hpay : ∀ ps, Forall (fun p => inline_data p = None) ps ->
                       omap image_payload_of ps = []).
  { intros ps Hps. induction Hps as [|p ps Hp _ IH]; [done|].
    cbn. unfold image_payload_of at 1. rewrite Hp. by destruct (part_text p). }
  assert (Hdec :
    match decode_response Image_open
            (generate_content {| api_key := key |}
               (generate_request (prompt_input inp))) with
    | inl e => response_parts response = inl e
    | inr r => ∃ ps, response_parts response = inr ps
                     ∧ r = {| image := None; text := last (omap text_of ps) |}
    end).
  { unfold decode_response, last_write_wins. rewrite Hcall.
    destruct (response_parts response) as [e|ps] eqn:Hparts; [done|].
    rewrite (Hpay ps (Hnone ps eq_refl)). by exists ps. }
  split_and!.
  - intros w' r. rewrite generate_image_spec. cbn zeta.
    destruct (decode_response _ _) as [e|r']; [done|].
    destruct Hdec as (ps & _ & ->). by intros [= <-].
  - intros ps w' Hparts. rewrite generate_image_spec. cbn zeta.
    destruct (decode_response _ _) as [e|r']; [congruence|].
    destruct Hdec as (ps' & Hparts' & ->). congruence.
  - intros ev. rewrite (main_generate _ _ _ Hpage Hcred). cbn zeta.
    destruct (generate_button inp).
    + destruct (decode_response _ _) as [e|r'].
      * unload. rewrite <- !app_assoc, elem_of_app. intros [?|Hin] Hdl; [done|].
        cbn in Hin. rewrite !elem_of_cons in Hin.
        destruct Hin as [->|[->|[->|Hin]]]; [done|done|done|].
        by apply elem_of_nil in Hin.
      * destruct Hdec as (ps & _ & ->). unload.
        rewrite <- !app_assoc, elem_of_app. intros [?|Hin] Hdl; [done|].
        cbn in Hin. rewrite !elem_of_cons in Hin.
        destruct Hin as [->|[->|Hin]]; [done|done|].
        by apply elem_of_nil in Hin.
    + unload. rewrite <- !app_assoc, elem_of_app. intros [?|Hin] Hdl; [done|].
      cbn in Hin. rewrite !elem_of_cons in Hin.
      destruct Hin as [->|[->|Hin]]; [done|done|].
      by apply elem_of_nil in Hin.
Qed.

(** C10: when [generate_image] or [modify_image] returns no result,
    the run of [main] leaves [last_generated_image] as it found it. *)
Theorem failed_call_keeps_last_image inp w key :
  credential (secrets w) (environ w) (api_key_input inp) = Some key ->
  let client := {| api_key := key |} in
  let run := main Image_open Image_save_png generate_content inp w in
  (∀ w1,
     page_radio inp = GenerateNewImage ->
     fst (generate_image Image_open generate_content (prompt_input inp) client w1)
     = Val None ->
     last_generated_image (snd run) = last_generated_image w)
  ∧ (∀ src w1,
     page_radio inp = ModifyExistingImage ->
     modify_source Image_open inp w = Some (inr src) ->
     fst (modify_image Image_open generate_content (modification_input inp) src client w1)
     = Val None ->
     last_generated_image (snd run) = last_generated_image w).
Proof.
  intros Hcred client run. subst client run. split.
  - intros w1 Hpage Hfail. rewrite generate_image_spec in Hfail. cbn zeta in Hfail.
    rewrite (main_generate _ _ _ Hpage Hcred). cbn zeta.
    destruct (generate_button inp); [|by unload].
    destruct (decode_response _ _) as [e|[[img|] txt]]; by unload.
  - intros src w1 Hpage Hsrc Hfail. rewrite modify_image_spec in Hfail. cbn zeta in Hfail.
    rewrite (main_modify _ _ _ Hpage Hcred). cbn zeta. rewrite Hsrc.
    destruct (modify_button inp); [|by unload].
    destruct (decode_response _ _) as [e|[[img|] txt]]; by unload.
Qed.

(** * Further properties of the four functions *)

(** ** [initialize_client] *)


Lemma load_secrets_entries w :
  secrets_entries (secrets (load_secrets w)) = secrets_entries (secrets w).
Proof. unfold load_secrets. destruct (secrets w) eqn:Hsec; cbn; by rewrite ?Hsec. Qed.

Lemma load_secrets_loaded w :
  (∀ entries, secrets w ≠ SecretsOnDisk entries) -> load_secrets w = w.
Proof. unfold load_secrets. destruct (secrets w) as [?|entries|?]; [done| |done].
  intros H. by destruct (H entries). Qed.


Lemma credential_after_put sec sec' env env' typed typed' key :
  (∀ v, secret_entry sec = Some v -> value_truthy (Some v) = true) ->
  secrets_entries sec' = secrets_entries sec ->
  credential sec env typed = Some key ->
  credential sec' (<[GOOGLE_API_KEY:=key]> env') typed' = Some key.
Proof.
  intros Hentry Hsame Hcred. pose proof (credential_nonempty _ _ _ _ Hcred) as Hkey.
  revert Hentry Hcred. unfold credential, secret_entry, found_key, dict_get.
  rewrite Hsame. destruct (secrets_entries sec) as [entries|]; [|done].
  cbn zeta. rewrite lookup_insert_eq.
  destruct (entries !! GOOGLE_API_KEY) as [[[|a s]|tn [|] t]|]; cbn; intros Hentry.
  - discriminate (Hentry _ eq_refl).
  - done.
  - done.
  - discriminate (Hentry _ eq_refl).
  - intros _. by destruct key.
Qed.

Lemma put_environ_twice k v w : put_environ k v (put_environ k v w) = put_environ k v w.
Proof. unfold put_environ. cbn. by rewrite insert_insert_eq. Qed.

Lemma load_secrets_twice w : load_secrets (load_secrets w) = load_secrets w.
Proof.
  apply load_secrets_loaded. intros entries. unfold load_secrets.
  destruct (secrets w) eqn:Hsec; cbn; by rewrite ?Hsec.
Qed.

(** Once [initialize_client] has found a key, a later call in the world
    it left finds the same key whatever is typed then, provided the
    secret store holds no falsy entry (such as the empty string) under
    the key name: the key written to [os.environ] is read back. *)
Theorem credential_persists_across_runs inp inp' w client w' :
  (∀ v, secret_entry (secrets w) = Some v -> value_truthy (Some v) = true) ->
  initialize_client inp w = (Val client, w') ->
  initialize_client inp' w' = (Val client, w').
Proof.
  intros Hentry. rewrite !initialize_client_spec.
  destruct (credential (secrets w) (environ w) (api_key_input inp)) as [key|] eqn:Hcred.
  - intros [= <- <-]. cbn [secrets environ put_environ].
    rewrite (credential_after_put _ _ _ _ _ (api_key_input inp') _ Hentry
               (load_secrets_entries w) Hcred).
    assert (Hload : load_secrets (put_environ GOOGLE_API_KEY key (load_secrets w))
                    = put_environ GOOGLE_API_KEY key (load_secrets w)).
    { apply load_secrets_loaded. intros entries. cbn. unfold load_secrets.
      destruct (secrets w) eqn:Hsec; cbn; by rewrite ?Hsec. }
    by rewrite Hload, put_environ_twice.
  - intros Hfail. destruct (initialize_failure_frame w) as ([Hs|[e He]] & _);
      rewrite Hfail in *; done.
Qed.

(** ** Decoding errors *)

Lemma decode_all_app l1 l2 :
  decode_all Image_open (l1 ++ l2) =
  match decode_all Image_open l1 with
  | inl e => inl e
  | inr imgs1 =>
      match decode_all Image_open l2 with
      | inl e => inl e
      | inr imgs2 => inr (imgs1 ++ imgs2)%list
      end
  end.
Proof.
  induction l1 as [|b l1 IH]; cbn.
  - by destruct (decode_all Image_open l2).
  - destruct (Image_open b) as [e|img]; [done|]. rewrite IH.
    destruct (decode_all Image_open l1) as [e|imgs1]; [done|].
    by destruct (decode_all Image_open l2).
Qed.

Lemma decode_all_Forall ps :
  Forall (fun q => part_text q = None -> ∀ blob, inline_data q = Some blob ->
                   ∃ img, Image_open (BytesIO (data blob)) = inr img) ps ->
  ∃ imgs, decode_all Image_open (omap image_payload_of ps) = inr imgs.
Proof.
  induction 1 as [|q ps Hq _ [imgs IH]]; [by exists []|].
  cbn. unfold image_payload_of at 1.
  destruct (part_text q) as [t|]; [by exists imgs|].
  destruct (inline_data q) as [blob|]; cbn; [|by exists imgs].
  destruct (Hq eq_refl blob eq_refl) as [img ->]. rewrite IH. by eexists.
Qed.

Lemma decode_response_abort response before p after blob e :
  response_parts response = inr (before ++ p :: after)%list ->
  Forall (fun q => part_text q = None -> ∀ blob, inline_data q = Some blob ->
                   ∃ img, Image_open (BytesIO (data blob)) = inr img) before ->
  part_text p = None -> inline_data p = Some blob ->
  Image_open (BytesIO (data blob)) = inl e ->
  decode_response Image_open (inr response) = inl e.
Proof.
  intros Hparts Hbefore Ht Hblob Hopen.
  unfold decode_response, last_write_wins. rewrite Hparts, omap_app, decode_all_app.
  destruct (decode_all_Forall _ Hbefore) as [imgs ->].
  cbn. unfold image_payload_of at 1. rewrite Ht, Hblob. cbn. by rewrite Hopen.
Qed.

(** A response is decoded up to its first image part that [Image.open]
    refuses: [generate_image] and [modify_image] then return [None] and
    report that exception, whatever the earlier parts held and whatever
    comes after. No partial result is kept. *)
Theorem first_undecodable_part_aborts client response before p after blob e :
  response_parts response = inr (before ++ p :: after)%list ->
  Forall (fun q => part_text q = None -> ∀ blob, inline_data q = Some blob ->
                   ∃ img, Image_open (BytesIO (data blob)) = inr img) before ->
  part_text p = None -> inline_data p = Some blob ->
  Image_open (BytesIO (data blob)) = inl e ->
  (∀ prompt w,
     generate_content client (generate_request prompt) = inr response ->
     generate_image Image_open generate_content prompt client w
     = (Val None,
        add_ui (StError ("Error generating image: " +:+ exn_str e))
               (add_call client (generate_request prompt) w)))
  ∧ (∀ prompt (src : Image) w,
     generate_content client (modify_request prompt src) = inr response ->
     modify_image Image_open generate_content prompt src client w
     = (Val None,
        add_ui (StError ("Error modifying image: " +:+ exn_str e))
               (add_call client (modify_request prompt src) w))).
Proof.
  intros Hparts Hbefore Ht Hblob Hopen.
  pose proof (decode_response_abort _ _ _ _ _ _ Hparts Hbefore Ht Hblob Hopen) as Hdec.
  split.
  - intros prompt w Hcall. rewrite generate_image_spec. cbn zeta.
    by rewrite Hcall, Hdec.
  - intros prompt src w Hcall. rewrite modify_image_spec. cbn zeta.
    by rewrite Hcall, Hdec.
Qed.

(** [generate_image] and [modify_image] write neither the secret store
    nor the environment nor the session state: each records exactly one
    remote call and renders nothing, except one error message when it
    returns [None]. *)
Theorem remote_functions_frame client w :
  (∀ prompt,
     let run := generate_image Image_open generate_content prompt client w in
     secrets (snd run) = secrets w ∧ environ (snd run) = environ w
     ∧ last_generated_image (snd run) = last_generated_image w
     ∧ calls (snd run) = (calls w ++ [(client, generate_request prompt)])%list
     ∧ ((∃ r, fst run = Val (Some r) ∧ ui (snd run) = ui w)
        ∨ (∃ msg, fst run = Val None ∧ ui (snd run) = (ui w ++ [StError msg])%list)))
  ∧ (∀ prompt (src : Image),
     let run := modify_image Image_open generate_content prompt src client w in
     secrets (snd run) = secrets w ∧ environ (snd run) = environ w
     ∧ last_generated_image (snd run) = last_generated_image w
     ∧ calls (snd run) = (calls w ++ [(client, modify_request prompt src)])%list
     ∧ ((∃ r, fst run = Val (Some r) ∧ ui (snd run) = ui w)
        ∨ (∃ msg, fst run = Val None ∧ ui (snd run) = (ui w ++ [StError msg])%list))).
Proof.
  split.
  - intros prompt run. subst run. rewrite generate_image_spec. cbn zeta.
    destruct (decode_response _ _) as [e|r]; cbn; split_and!; try done;
      [right; by eexists|left; by eexists].
  - intros prompt src run. subst run. rewrite modify_image_spec. cbn zeta.
    destruct (decode_response _ _) as [e|r]; cbn; split_and!; try done;
      [right; by eexists|left; by eexists].
Qed.

(** ** Runs of [main] *)

(** A run of [main] issues at most one remote call, and only when a
    key was found and the button of the selected page was clicked (on
    the modify page, also only when a source image was settled on). The
    request carries the text of the page's text area as it is, the
    empty text included. *)
Theorem main_issues_at_most_one_call inp w :
  calls (snd (main Image_open Image_save_png generate_content inp w)) =
  (calls w ++
   match credential (secrets w) (environ w) (api_key_input inp) with
   | None => []
   | Some key =>
       match page_radio inp with
       | GenerateNewImage =>
           if generate_button inp
           then [({| api_key := key |}, generate_request (prompt_input inp))]
           else []
       | ModifyExistingImage =>
           match modify_source Image_open inp w with
           | Some (inr src) =>
               if modify_button inp
               then [({| api_key := key |},
                      modify_request (modification_input inp) src)]
               else []
           | _ => []
           end
       end
   end)%list.
Proof.
  destruct (credential (secrets w) (environ w) (api_key_input inp)) as [key|] eqn:Hcred.
  - destruct (page_radio inp) eqn:Hpage.
    + rewrite (main_generate _ _ _ Hpage Hcred). cbn zeta.
      destruct (generate_button inp); [|unload; by rewrite app_nil_r].
      destruct (decode_response _ _) as [e|[[img|] txt]]; [by unload| |by unload].
      destruct (truthy txt); by unload.
    + rewrite (main_modify _ _ _ Hpage Hcred). cbn zeta.
      destruct (modify_source _ _ _) as [[e|src]|];
        [unload; by rewrite app_nil_r| |unload; by rewrite app_nil_r].
      destruct (modify_button inp); [|unload; by rewrite app_nil_r].
      destruct (decode_response _ _) as [e|[[img|] txt]]; [by unload| |by unload].
      destruct (truthy txt); by unload.
  - destruct (main_not_initialized_frame _ _ Hcred) as (_ & -> & _).
    by rewrite app_nil_r.
Qed.

(** On the modify page an uploaded file wins over the stored image:
    when the upload opens as [src], the run shows it as the uploaded
    image and a click sends [src], whatever the session state holds and
    whether or not the reuse box is checked. *)
Theorem uploaded_file_takes_precedence inp w key f src :
  page_radio inp = ModifyExistingImage ->
  credential (secrets w) (environ w) (api_key_input inp) = Some key ->
  uploaded_file inp = Some f ->
  Image_open f = inr src ->
  modify_button inp = true ->
  let run := main Image_open Image_save_png generate_content inp w in
  calls (snd run)
  = (calls w ++ [({| api_key := key |},
                  modify_request (modification_input inp) src)])%list
  ∧ ∃ rest, ui (snd run)
            = (ui w ++ [StTitle "Gemini Image Creator"; StHeader "Modify an Image";
                        StImage src "Uploaded Image"] ++ rest)%list.
Proof.
  intros Hpage Hcred Hup Hopen Hbtn run. subst run.
  rewrite (main_modify _ _ _ Hpage Hcred). cbn zeta.
  unfold modify_source. rewrite Hup, Hopen, Hbtn.
  destruct (decode_response _ _) as [e|[[img|] txt]]; [| destruct (truthy txt) |];
    unload; (split; [done|]); rewrite <- !app_assoc; cbn; eexists; reflexivity.
Qed.

(** An uploaded file that [Image.open] refuses ends the run of the
    modify page with that exception (line 128 is outside any [try]),
    before any remote call and without writing the stored image,
    whatever the session state holds and whichever boxes and buttons
    are set. *)
Theorem corrupt_upload_leaves_main inp w key f e :
  page_radio inp = ModifyExistingImage ->
  credential (secrets w) (environ w) (api_key_input inp) = Some key ->
  uploaded_file inp = Some f ->
  Image_open f = inl e ->
  let run := main Image_open Image_save_png generate_content inp w in
  fst run = Raised e
  ∧ calls (snd run) = calls w
  ∧ last_generated_image (snd run) = last_generated_image w.
Proof.
  intros Hpage Hcred Hup Hopen run. subst run.
  rewrite (main_modify _ _ _ Hpage Hcred). cbn zeta.
  unfold modify_source. rewrite Hup, Hopen. by unload.
Qed.

(** When the call of a run returns a record without an image, the text
    of the record is not shown: the page renders nothing for the result
    and the stored image is left as it was. *)
Theorem text_only_result_not_shown inp w key :
  credential (secrets w) (environ w) (api_key_input inp) = Some key ->
  let client := {| api_key := key |} in
  let run := main Image_open Image_save_png generate_content inp w in
  (∀ w1 txt,
     page_radio inp = GenerateNewImage ->
     fst (generate_image Image_open generate_content (prompt_input inp) client w1)
     = Val (Some {| image := None; text := txt |}) ->
     ui (snd run)
     = (ui w ++ [StTitle "Gemini Image Creator"; StHeader "Generate a New Image"])%list
     ∧ last_generated_image (snd run) = last_generated_image w)
  ∧ (∀ src w1 txt,
     page_radio inp = ModifyExistingImage ->
     modify_source Image_open inp w = Some (inr src) ->
     fst (modify_image Image_open generate_content (modification_input inp) src
            client w1)
     = Val (Some {| image := None; text := txt |}) ->
     ui (snd run)
     = (ui w ++ [StTitle "Gemini Image Creator"; StHeader "Modify an Image";
                 StImage src (match uploaded_file inp with
                              | Some _ => "Uploaded Image"
                              | None => "Last Generated Image"
                              end)])%list
     ∧ last_generated_image (snd run) = last_generated_image w).
Proof.
  intros Hcred client run. subst client run. split.
  - intros w1 txt Hpage Hres.
    rewrite generate_image_spec in Hres. cbn zeta in Hres.
    rewrite (main_generate _ _ _ Hpage Hcred). cbn zeta.
    destruct (decode_response _ _) as [e|r]; cbn in Hres; simplify_eq.
    destruct (generate_button inp); unload; by rewrite <- !app_assoc.
  - intros src w1 txt Hpage Hsrc Hres.
    rewrite modify_image_spec in Hres. cbn zeta in Hres.
    rewrite (main_modify _ _ _ Hpage Hcred). cbn zeta. rewrite Hsrc.
    destruct (decode_response _ _) as [e|r]; cbn in Hres; simplify_eq.
    destruct (modify_button inp); unload; by rewrite <- !app_assoc.
Qed.

(** A run of [main] never clears the stored image: it leaves it as it
    was, or replaces it by the image of the record that the one remote
    call of the run was decoded to. *)
Theorem stored_image_never_cleared inp w :
  let run := main Image_open Image_save_png generate_content inp w in
  (last_generated_image (snd run) = last_generated_image w
   ∨ ∃ client rq r img,
       calls (snd run) = (calls w ++ [(client, rq)])%list
       ∧ decode_response Image_open (generate_content client rq) = inr r
       ∧ image r = Some img
       ∧ last_generated_image (snd run) = Some img)
  ∧ (is_Some (last_generated_image w) -> is_Some (last_generated_image (snd run))).
Proof.
  cbn zeta.
  assert (Hstep :
    last_generated_image (snd (main Image_open Image_save_png generate_content inp w))
    = last_generated_image w
    ∨ ∃ client rq r img,
        calls (snd (main Image_open Image_save_png generate_content inp w))
        = (calls w ++ [(client, rq)])%list
        ∧ decode_response Image_open (generate_content client rq) = inr r
        ∧ image r = Some img
        ∧ last_generated_image
            (snd (main Image_open Image_save_png generate_content inp w)) = Some img).
  { destruct (credential (secrets w) (environ w) (api_key_input inp)) as [key|] eqn:Hcred.
    - destruct (page_radio inp) eqn:Hpage.
      + rewrite (main_generate _ _ _ Hpage Hcred). cbn zeta.
        destruct (generate_button inp); [|left; by unload].
        destruct (decode_response _ _) as [e|[[img|] txt]] eqn:Hdec;
          [left; by unload| |left; by unload].
        right. eexists _, _, _, img. split_and!; [|exact Hdec|done|];
          destruct (truthy txt); by unload.
      + rewrite (main_modify _ _ _ Hpage Hcred). cbn zeta.
        destruct (modify_source _ _ _) as [[e|src]|];
          [left; by unload| |left; by unload].
        destruct (modify_button inp); [|left; by unload].
        destruct (decode_response _ _) as [e|[[img|] txt]] eqn:Hdec;
          [left; by unload| |left; by unload].
        right. eexists _, _, _, img. split_and!; [|exact Hdec|done|];
          destruct (truthy txt); by unload.
    - destruct (main_not_initialized_frame _ _ Hcred) as (_ & _ & Hlast). by left. }
  split; [exact Hstep|].
  intros Hsome. destruct Hstep as [-> | (? & ? & ? & img & _ & _ & _ & ->)]; [done|].
  by eexists.
Qed.

(** Generate, then reuse: after a run of the generate page whose call
    returned an image, a run of the modify page with no upload, the
    reuse box checked and the button clicked sends that image with the
    instruction, under the key the first run found (with no falsy
    entry, such as the empty string, in the secret store; whatever is
    typed in the second run). *)
Theorem generate_then_reuse inp1 inp2 w key w1 img txt :
  (∀ v, secret_entry (secrets w) = Some v -> value_truthy (Some v) = true) ->
  credential (secrets w) (environ w) (api_key_input inp1) = Some key ->
  page_radio inp1 = GenerateNewImage -> generate_button inp1 = true ->
  fst (generate_image Image_open generate_content (prompt_input inp1)
         {| api_key := key |} w1)
  = Val (Some {| image := Some img; text := txt |}) ->
  page_radio inp2 = ModifyExistingImage -> uploaded_file inp2 = None ->
  use_last_checkbox inp2 = true -> modify_button inp2 = true ->
  let run1 := main Image_open Image_save_png generate_content inp1 w in
  let run2 := main Image_open Image_save_png generate_content inp2 (snd run1) in
  fst run1 = Val tt
  ∧ fst run2 = Val tt
  ∧ calls (snd run2)
    = (calls w ++ [({| api_key := key |}, generate_request (prompt_input inp1));
                   ({| api_key := key |},
                    modify_request (modification_input inp2) img)])%list.
Proof.
  intros Hsec Hcred Hpage1 Hbtn1 Hres Hpage2 Hup Hbox Hbtn2 run1 run2.
  subst run1 run2.
  rewrite generate_image_spec in Hres. cbn zeta in Hres.
  rewrite (main_generate _ _ _ Hpage1 Hcred). cbn zeta. rewrite Hbtn1.
  destruct (decode_response _ _) as [e|r]; cbn in Hres; simplify_eq.
  remember (put_last_generated_image img _) as w2 eqn:Hw2.
  assert (Hcred2 : credential (secrets w2) (environ w2) (api_key_input inp2) = Some key).
  { rewrite Hw2. destruct (truthy txt); cbn;
      refine (credential_after_put _ _ _ _ _ _ _ Hsec _ Hcred);
      apply (load_secrets_entries (title_shown w)). }
  assert (Hsrc : modify_source Image_open inp2 w2 = Some (inr img)).
  { unfold modify_source. rewrite Hup, Hbox, Hw2. done. }
  assert (Hcalls : calls w2
                   = (calls w ++ [({| api_key := key |},
                                   generate_request (prompt_input inp1))])%list).
  { rewrite Hw2. destruct (truthy txt); by unload. }
  clear Hw2. cbn [fst snd]. rewrite (main_modify _ _ _ Hpage2 Hcred2). cbn zeta.
  rewrite Hsrc, Hbtn2.
  destruct (decode_response _ _) as [e|[[img'|] txt']]; [| destruct (truthy txt') |];
    unload; rewrite Hcalls, <- app_assoc; done.
Qed.

End Properties.

(** * Instances on the sample data *)

Lemma generate_image_last_write_wins_witness :
  generate_image Sample.open Sample.remote_a_X_b "a city" Sample.client0 Sample.world0
  = (Val (Some {| image := Some Sample.X; text := Some "b" |}),
     add_call Sample.client0 (generate_request "a city") Sample.world0).
Proof.
  exact (generate_image_last_write_wins Sample.open Sample.remote_a_X_b "a city"
           Sample.client0 Sample.world0 (Sample.respond Sample.parts_a_X_b)
           Sample.parts_a_X_b eq_refl eq_refl).
Defined.

Lemma generate_image_never_raises_witness :
  ∃ e, generate_image Sample.open Sample.remote_down "a city" Sample.client0 Sample.world0
       = (Val None,
          add_ui (StError ("Error generating image: " +:+ exn_str e))
                 (add_call Sample.client0 (generate_request "a city") Sample.world0)).
Proof.
  destruct (generate_image_never_raises Sample.open Sample.remote_down "a city"
              Sample.client0 Sample.world0) as [(r & Hr & _)|(e & He & _)].
  - discriminate Hr.
  - exists e. exact He.
Defined.

Lemma modify_image_same_contract_witness :
  fst (generate_image Sample.open Sample.remote_a_X_b "a city"
         Sample.client0 Sample.world0)
  = fst (modify_image Sample.open Sample.remote_a_X_b "taller" Sample.Y
           Sample.client0 Sample.world0).
Proof.
  destruct (modify_image_same_contract Sample.open Sample.remote_a_X_b
              "a city" "taller" Sample.Y Sample.client0 Sample.world0 eq_refl)
    as (Hsame & _).
  exact Hsame.
Defined.

Lemma text_shadows_inline_data_witness :
  generate_image_part Sample.open
    {| part_text := Some "caption";
       inline_data := Some {| data := None; mime_type := None |} |}
    {| image := Some Sample.Y; text := None |} Sample.world0
  = (Val {| image := Some Sample.Y; text := Some "caption" |}, Sample.world0).
Proof.
  destruct (text_shadows_inline_data Sample.open
              {| part_text := Some "caption";
                 inline_data := Some {| data := None; mime_type := None |} |}
              "caption" {| data := None; mime_type := None |} eq_refl eq_refl)
    as (Hgen & _).
  exact (Hgen {| image := Some Sample.Y; text := None |} Sample.world0).
Defined.

(** C4, as stated, fails in three ways. With an empty entry in the
    secrets file and a usable key in the environment, priority order
    designates the environment key, but the run uses what was typed,
    and halts when nothing was typed. With no secrets file, or with a
    number as the entry, the run raises instead of using the
    environment key. *)
Lemma credential_priority_counterexample :
  credential_by_priority (secrets Sample.world_empty_secret)
    (environ Sample.world_empty_secret) (api_key_input Sample.typed_key)
  = Some "env-key"
  ∧ fst (initialize_client Sample.typed_key Sample.world_empty_secret)
    = Val {| api_key := "typed-key" |}
  ∧ fst (initialize_client Sample.typed_key Sample.world_empty_secret)
    ≠ Val {| api_key := "env-key" |}
  ∧ fst (initialize_client Sample.typed_key Sample.world_empty_secret)
    ≠ Val {| api_key := EmptyString |}
  ∧ credential_by_priority (secrets Sample.world_empty_secret)
      (environ Sample.world_empty_secret) (api_key_input Sample.generate_click)
    = Some "env-key"
  ∧ fst (initialize_client Sample.generate_click Sample.world_empty_secret)
    = Stopped
  ∧ credential_by_priority (secrets Sample.world_no_secrets_file)
      (environ Sample.world_no_secrets_file) (api_key_input Sample.generate_click)
    = Some "env-key"
  ∧ fst (initialize_client Sample.generate_click Sample.world_no_secrets_file)
    = Raised {| exn_class := "StreamlitSecretNotFoundError";
                exn_str := "No secrets found." |}
  ∧ credential_by_priority (secrets Sample.world_number_secret)
      (environ Sample.world_number_secret) (api_key_input Sample.generate_click)
    = Some "env-key"
  ∧ fst (initialize_client Sample.generate_click Sample.world_number_secret)
    = Raised (TypeError "str expected, not int").
Proof.
  split_and!; try (vm_compute; reflexivity); intros Heq; vm_compute in Heq;
    discriminate Heq.
Qed.

Lemma credential_source_order_witness :
  initialize_client Sample.generate_click Sample.world_other_secret
  = (Val {| api_key := "env-key" |},
     put_environ GOOGLE_API_KEY "env-key" (load_secrets Sample.world_other_secret))
  ∧ environ (load_secrets Sample.world_other_secret) !! "OTHER_TOKEN" = Some "abc".
Proof.
  destruct (credential_source_order Sample.open Sample.save_png Sample.remote_a_X_b
              Sample.generate_click Sample.world_other_secret) as (Hprio & _).
  split; [|vm_compute; reflexivity].
  apply Hprio.
  - by eexists.
  - intros v Hv. vm_compute in Hv. discriminate Hv.
Defined.

Lemma modify_without_source_image_witness :
  calls (snd (main Sample.open Sample.save_png Sample.remote_a_X_b
                Sample.modify_click Sample.world0)) = []
  ∧ main Sample.open Sample.save_png Sample.remote_a_X_b
      Sample.modify_click Sample.world0
    = (Val tt,
       add_ui (StInfo "Please upload an image or generate one first")
         (add_ui (StHeader "Modify an Image")
            (put_environ GOOGLE_API_KEY "env-key" (title_shown Sample.world0)))).
Proof.
  destruct (modify_without_source_image Sample.open Sample.save_png
              Sample.remote_a_X_b Sample.modify_click Sample.world0
              eq_refl eq_refl (or_introl eq_refl)) as (Hcalls & _ & Hrun).
  split; [exact Hcalls|]. apply Hrun. reflexivity.
Defined.

Lemma last_image_slot_written_and_read_witness :
  last_generated_image
    (snd (main Sample.open Sample.save_png Sample.remote_a_X_b
            Sample.generate_click Sample.world0)) = Some Sample.X
  ∧ calls (snd (main Sample.open Sample.save_png Sample.remote_a_X_b
                  Sample.modify_click Sample.world_Y))
    = [(Sample.client0, modify_request "Make the buildings taller" Sample.Y)].
Proof.
  split.
  - destruct (last_image_slot_written_and_read Sample.open Sample.save_png
                Sample.remote_a_X_b Sample.generate_click Sample.world0 "env-key"
                eq_refl) as (Hgen & _).
    apply (Hgen Sample.world0 Sample.X (Some "b")); reflexivity.
  - destruct (last_image_slot_written_and_read Sample.open Sample.save_png
                Sample.remote_a_X_b Sample.modify_click Sample.world_Y "env-key"
                eq_refl) as (_ & _ & Hreuse).
    apply (Hreuse Sample.Y); reflexivity.
Defined.

Lemma no_image_part_no_download_witness :
  generate_image Sample.open Sample.remote_text_only "a city in perspective"
    Sample.client0 Sample.world0
  = (Val (Some {| image := None; text := Some "I cannot draw that." |}),
     add_call Sample.client0 (generate_request "a city in perspective") Sample.world0)
  ∧ ∀ ev, ev ∈ ui (snd (main Sample.open Sample.save_png Sample.remote_text_only
                          Sample.generate_click Sample.world0)) ->
          is_download ev = true -> False.
Proof.
  assert (Hnone : ∀ ps,
    response_parts (Sample.respond [Sample.text_part "I cannot draw that."]) = inr ps ->
    Forall (fun p => inline_data p = None) ps).
  { intros ps [= <-]. repeat constructor. }
  destruct (no_image_part_no_download Sample.open Sample.save_png
              Sample.remote_text_only Sample.generate_click Sample.world0 "env-key"
              (Sample.respond [Sample.text_part "I cannot draw that."])
              eq_refl eq_refl eq_refl Hnone)
    as (_ & Hres & Hui).
  split.
  - exact (Hres [Sample.text_part "I cannot draw that."] Sample.world0 eq_refl).
  - intros ev Hin Hdl. exact (proj1 (elem_of_nil ev) (Hui ev Hin Hdl)).
Defined.

Lemma failed_call_keeps_last_image_witness :
  last_generated_image
    (snd (main Sample.open Sample.save_png Sample.remote_down
            Sample.generate_click Sample.world_Y)) = Some Sample.Y
  ∧ last_generated_image
      (snd (main Sample.open Sample.save_png Sample.remote_down
              Sample.modify_click Sample.world_Y)) = Some Sample.Y.
Proof.
  destruct (failed_call_keeps_last_image Sample.open Sample.save_png
              Sample.remote_down Sample.generate_click Sample.world_Y "env-key"
              eq_refl) as (Hgen & _).
  destruct (failed_call_keeps_last_image Sample.open Sample.save_png
              Sample.remote_down Sample.modify_click Sample.world_Y "env-key"
              eq_refl) as (_ & Hmod).
  split.
  - apply (Hgen Sample.world_Y); reflexivity.
  - apply (Hmod Sample.Y Sample.world_Y); reflexivity.
Defined.

(** * Instances of the further properties *)

Lemma credential_persists_across_runs_witness :
  initialize_client Sample.generate_click
    (put_environ GOOGLE_API_KEY "typed-key" Sample.world_no_key)
  = (Val {| api_key := "typed-key" |},
     put_environ GOOGLE_API_KEY "typed-key" Sample.world_no_key).
Proof.
  apply (credential_persists_across_runs Sample.typed_key Sample.generate_click
           Sample.world_no_key).
  - intros v Hv. vm_compute in Hv. discriminate Hv.
  - reflexivity.
Defined.

Lemma first_undecodable_part_aborts_witness :
  generate_image Sample.open Sample.remote_X_bad_Y "a city" Sample.client0 Sample.world0
  = (Val None,
     add_ui (StError "Error generating image: cannot identify image file")
            (add_call Sample.client0 (generate_request "a city") Sample.world0)).
Proof.
  destruct (first_undecodable_part_aborts Sample.open Sample.remote_X_bad_Y
              Sample.client0 (Sample.respond Sample.parts_X_bad_Y)
              [Sample.text_part "a"; Sample.image_part Sample.X]
              (Sample.image_part [])
              [Sample.image_part Sample.Y; Sample.text_part "b"]
              {| data := Some []; mime_type := Some "image/png" |}
              {| exn_class := "UnidentifiedImageError";
                 exn_str := "cannot identify image file" |})
    as (Hgen & _).
  - reflexivity.
  - repeat constructor.
    + intros Habs. discriminate Habs.
    + intros _ blob [= <-]. by eexists.
  - reflexivity.
  - reflexivity.
  - reflexivity.
  - apply (Hgen "a city" Sample.world0). reflexivity.
Defined.

Lemma uploaded_file_takes_precedence_witness :
  calls (snd (main Sample.open Sample.save_png Sample.remote_a_X_b
                Sample.upload_click Sample.world_Y))
  = [(Sample.client0, modify_request "Make the buildings taller" Sample.X)].
Proof.
  destruct (uploaded_file_takes_precedence Sample.open Sample.save_png
              Sample.remote_a_X_b Sample.upload_click Sample.world_Y "env-key"
              Sample.X Sample.X eq_refl eq_refl eq_refl eq_refl eq_refl)
    as (Hcalls & _).
  exact Hcalls.
Defined.

Lemma text_only_result_not_shown_witness :
  ui (snd (main Sample.open Sample.save_png Sample.remote_text_only
             Sample.generate_click Sample.world0))
  = [StTitle "Gemini Image Creator"; StHeader "Generate a New Image"]
  ∧ last_generated_image
      (snd (main Sample.open Sample.save_png Sample.remote_text_only
              Sample.generate_click Sample.world0)) = None.
Proof.
  destruct (text_only_result_not_shown Sample.open Sample.save_png
              Sample.remote_text_only Sample.generate_click Sample.world0 "env-key"
              eq_refl) as (Hgen & _).
  apply (Hgen Sample.world0 (Some "I cannot draw that.")); reflexivity.
Defined.

Lemma generate_then_reuse_witness :
  calls (snd (main Sample.open Sample.save_png Sample.remote_a_X_b Sample.modify_click
                (snd (main Sample.open Sample.save_png Sample.remote_a_X_b
                        Sample.generate_click Sample.world0))))
  = [(Sample.client0, generate_request "a city in perspective");
     (Sample.client0, modify_request "Make the buildings taller" Sample.X)].
Proof.
  assert (Hsec : ∀ v, secret_entry (secrets Sample.world0) = Some v ->
                      value_truthy (Some v) = true)
    by (intros v Hv; vm_compute in Hv; discriminate Hv).
  destruct (generate_then_reuse Sample.open Sample.save_png Sample.remote_a_X_b
              Sample.generate_click Sample.modify_click Sample.world0 "env-key"
              Sample.world0 Sample.X (Some "b") Hsec eq_refl eq_refl eq_refl eq_refl
              eq_refl eq_refl eq_refl eq_refl) as (_ & _ & Hcalls).
  exact Hcalls.
Defined.

Lemma corrupt_upload_leaves_main_witness :
  fst (main Sample.open Sample.save_png Sample.remote_a_X_b
         Sample.corrupt_upload_click Sample.world_Y)
  = Raised {| exn_class := "UnidentifiedImageError";
              exn_str := "cannot identify image file" |}
  ∧ calls (snd (main Sample.open Sample.save_png Sample.remote_a_X_b
                  Sample.corrupt_upload_click Sample.world_Y)) = []
  ∧ last_generated_image
      (snd (main Sample.open Sample.save_png Sample.remote_a_X_b
              Sample.corrupt_upload_click Sample.world_Y)) = Some Sample.Y.
Proof.
  exact (corrupt_upload_leaves_main Sample.open Sample.save_png Sample.remote_a_X_b
           Sample.corrupt_upload_click Sample.world_Y "env-key" []
           {| exn_class := "UnidentifiedImageError";
              exn_str := "cannot identify image file" |}
           eq_refl eq_refl eq_refl eq_refl).
Defined.
